(** * cuda/api/types.h : value types of the CUDA API wrappers

    A shallow embedding of the value structs of [src/cuda/api/types.h]
    ([dimensions_t], [compute_capability_t], [launch_configuration_t] and the
    enumerations with aliases) and the properties of their member functions
    and comparison operators.

    Integer model.  The header is compiled for the 64-bit hosts CUDA
    supports: [unsigned] is 32 bits wide, [size_t] 64, [unsigned short] 16
    and [unsigned char] 8.  A value of a w-bit unsigned type is a [Z] in
    [0, 2^w); every arithmetic operation and every conversion of the source
    is followed by the reduction modulo [2^w] that C++ prescribes. *)

From Stdlib Require Import ZArith Bool List Lia.
Import ListNotations.
Local Open Scope Z_scope.

(** ** Unsigned machine integers *)

Module UInt.

Definition modulus (bits : Z) : Z := 2 ^ bits.

(** Conversion to a [bits]-wide unsigned type. *)
Definition wrap (bits v : Z) : Z := v mod modulus bits.

Definition in_range (bits v : Z) : Prop := 0 <= v < modulus bits.

Definition unsigned_bits : Z := 32.
Definition size_t_bits : Z := 64.
Definition unsigned_short_bits : Z := 16.
Definition unsigned_char_bits : Z := 8.

Definition to_unsigned : Z -> Z := wrap unsigned_bits.
Definition to_size_t : Z -> Z := wrap size_t_bits.
Definition to_unsigned_short : Z -> Z := wrap unsigned_short_bits.
Definition to_unsigned_char : Z -> Z := wrap unsigned_char_bits.

Definition is_unsigned : Z -> Prop := in_range unsigned_bits.
Definition is_size_t : Z -> Prop := in_range size_t_bits.
Definition is_unsigned_short : Z -> Prop := in_range unsigned_short_bits.

(** A C++ [bool] converted to an integer type, and back. *)
Definition of_bool (b : bool) : Z := if b then 1 else 0.
Definition truth (v : Z) : bool := negb (v =? 0).

End UInt.

(** ** namespace cuda *)

Module cuda.
Import UInt.

(** [dim3]: three [unsigned] members (declared in the CUDA headers). *)
Record dim3 : Type := Build_dim3 { x : Z; y : Z; z : Z }.

(** [struct dimensions_t : public dim3] adds member functions only, so a
    [dimensions_t] is its [dim3] base and [static_cast<dim3>] keeps every
    member. *)
Definition dimensions_t : Type := dim3.
Definition static_cast_dim3 (d : dimensions_t) : dim3 := d.

Definition dim3_wf (d : dim3) : Prop :=
  is_unsigned (x d) /\ is_unsigned (y d) /\ is_unsigned (z d).

(** [inline size_t empty() const
      { return (x == 0) or (y == 0) or (z == 0); }] *)
Definition empty (d : dimensions_t) : Z :=
  to_size_t (of_bool ((x d =? 0) || (y d =? 0) || (z d =? 0))).

(** [inline size_t volume() const { return (size_t) x * y * z; }]
    The cast binds tighter than [*]: [x] is converted to [size_t] first,
    the usual arithmetic conversions then bring [y], and after it [z], to
    [size_t], and each of the two products is reduced modulo [2^64]. *)
Definition size_t_mul (a b : Z) : Z := to_size_t (a * b).

Definition volume (d : dimensions_t) : Z :=
  size_t_mul (size_t_mul (to_size_t (x d)) (to_size_t (y d)))
             (to_size_t (z d)).

(** [inline unsigned char dimensionality() const
      { return (z > 1) + (y > 1) + (x > 1); }] *)
Definition dimensionality (d : dimensions_t) : Z :=
  to_unsigned_char
    (of_bool (1 <? z d) + of_bool (1 <? y d) + of_bool (1 <? x d)).

(** [operator==(const dim3&, const dim3&)] *)
Definition dim3_eq (lhs rhs : dim3) : bool :=
  (x lhs =? x rhs) && (y lhs =? y rhs) && (z lhs =? z rhs).

(** [operator==(const dimensions_t&, const dimensions_t&)] *)
Definition dimensions_eq (lhs rhs : dimensions_t) : bool :=
  dim3_eq (static_cast_dim3 lhs) (static_cast_dim3 rhs).

Definition grid_dimensions_t : Type := dimensions_t.
Definition grid_block_dimensions_t : Type := dimensions_t.

(** [struct compute_capability_t { unsigned major; unsigned minor; ... }] *)
Record compute_capability_t : Type :=
  Build_compute_capability { major : Z; minor : Z }.

Definition compute_capability_wf (cc : compute_capability_t) : Prop :=
  is_unsigned (major cc) /\ is_unsigned (minor cc).

(** [unsigned as_combined_number() const { return major * 10 + minor; }]
    Both the product and the sum are [unsigned] operations. *)
Definition unsigned_mul (a b : Z) : Z := to_unsigned (a * b).
Definition unsigned_add (a b : Z) : Z := to_unsigned (a + b).

Definition as_combined_number (cc : compute_capability_t) : Z :=
  unsigned_add (unsigned_mul (major cc) 10) (minor cc).

(** [static const compute_capability_t from_combined_number(unsigned combined)
      { return { combined / 10, combined % 10 }; }]
    On unsigned operands [/] and [%] are the floor quotient and remainder. *)
Definition from_combined_number (combined : Z) : compute_capability_t :=
  {| major := combined / 10; minor := combined mod 10 |}.

(** [bool is_valid() const
      { return (major > 0) and (major < 9999) and (minor > 0) and (minor < 9999); }] *)
Definition is_valid (cc : compute_capability_t) : bool :=
  (0 <? major cc) && (major cc <? 9999) && (0 <? minor cc) && (minor cc <? 9999).

(** The six comparison operators of [compute_capability_t]. *)
Definition compute_capability_eq (lhs rhs : compute_capability_t) : bool :=
  (major lhs =? major rhs) && (minor lhs =? minor rhs).

Definition compute_capability_ne (lhs rhs : compute_capability_t) : bool :=
  negb (major lhs =? major rhs) || negb (minor lhs =? minor rhs).

Definition compute_capability_lt (lhs rhs : compute_capability_t) : bool :=
  (major lhs <? major rhs) || ((major lhs =? major rhs) && (minor lhs <? minor rhs)).

Definition compute_capability_le (lhs rhs : compute_capability_t) : bool :=
  (major lhs <? major rhs) || ((major lhs =? major rhs) && (minor lhs <=? minor rhs)).

Definition compute_capability_gt (lhs rhs : compute_capability_t) : bool :=
  (major lhs >? major rhs) || ((major lhs =? major rhs) && (minor lhs >? minor rhs)).

Definition compute_capability_ge (lhs rhs : compute_capability_t) : bool :=
  (major lhs >? major rhs) || ((major lhs =? major rhs) && (minor lhs >=? minor rhs)).

(** [make_compute_capability(unsigned major, unsigned minor)] and
    [make_compute_capability(unsigned combined)]. *)
Definition make_compute_capability (major minor : Z) : compute_capability_t :=
  {| major := major; minor := minor |}.

Definition make_compute_capability_combined (combined : Z) : compute_capability_t :=
  {| major := combined / 10; minor := combined mod 10 |}.

(** [launch_configuration_t]; the shared memory size is an [unsigned short]. *)
Record launch_configuration_t : Type := Build_launch_configuration {
  grid_dimensions : grid_dimensions_t;
  block_dimensions : grid_block_dimensions_t;
  dynamic_shared_memory_size : Z
}.

Definition launch_configuration_wf (c : launch_configuration_t) : Prop :=
  dim3_wf (grid_dimensions c) /\ dim3_wf (block_dimensions c) /\
  is_unsigned_short (dynamic_shared_memory_size c).

(** [make_launch_config(grid_dimensions, block_dimensions,
                        dynamic_shared_memory_size = 0)]:
    [None] is the call that leaves the third argument to its default. *)
Definition make_launch_config
    (grid_dimensions : grid_dimensions_t)
    (block_dimensions : grid_block_dimensions_t)
    (dynamic_shared_memory_size : option Z) : launch_configuration_t :=
  {| grid_dimensions := grid_dimensions;
     block_dimensions := block_dimensions;
     dynamic_shared_memory_size :=
       match dynamic_shared_memory_size with
       | Some s => s
       | None => 0
       end |}.

(** [operator==(const launch_configuration_t, const launch_configuration_t&)] *)
Definition launch_configuration_eq (lhs rhs : launch_configuration_t) : bool :=
  dimensions_eq (grid_dimensions lhs) (grid_dimensions rhs) &&
  dimensions_eq (block_dimensions lhs) (block_dimensions rhs) &&
  (dynamic_shared_memory_size lhs =? dynamic_shared_memory_size rhs).

(** The enumerators of the CUDA runtime that the cache preferences are
    mapped onto.  Their values are set by [<driver_types.h>], a header of
    the CUDA toolkit and not of this repository: they are parameters. *)
Class driver_types : Type := {
  cudaFuncCachePreferNone : Z;
  cudaFuncCachePreferShared : Z;
  cudaFuncCachePreferL1 : Z;
  cudaFuncCachePreferEqual : Z
}.

(** [enum class multiprocessor_cache_preference_t]: four canonical
    enumerators and four aliases, each initialised by its canonical name. *)
Module multiprocessor_cache_preference_t.
Section enumerators.
Context {drv : driver_types}.

Definition no_preference : Z := cudaFuncCachePreferNone.
Definition equal_l1_and_shared_memory : Z := cudaFuncCachePreferEqual.
Definition prefer_shared_memory_over_l1 : Z := cudaFuncCachePreferShared.
Definition prefer_l1_over_shared_memory : Z := cudaFuncCachePreferL1.
Definition none : Z := no_preference.
Definition equal : Z := equal_l1_and_shared_memory.
Definition prefer_shared : Z := prefer_shared_memory_over_l1.
Definition prefer_l1 : Z := prefer_l1_over_shared_memory.
End enumerators.
End multiprocessor_cache_preference_t.

(** [enum synchronicity_t : bool] (unscoped: its enumerators are names of
    the namespace). *)
Definition synchronicity_t : Type := bool.
Definition asynchronous : synchronicity_t := false.
Definition synchronous : synchronicity_t := true.
Definition sync : synchronicity_t := synchronous.
Definition async : synchronicity_t := asynchronous.

(** [enum class endianness_t : bool
      { big, big_endian = big, little, little_endian = little }]
    The first enumerator is 0 and one without an initialiser is its
    predecessor plus one. *)
Module endianness_t.
Definition big : bool := truth 0.
Definition big_endian : bool := big.
Definition little : bool := truth (of_bool big_endian + 1).
Definition little_endian : bool := little.
End endianness_t.

End cuda.

(** ** Reference definitions written from the specification's wording

    Each one is compared below with the definition taken from the header. *)

Module spec.
Import UInt cuda.

(** [volume()] as the specification describes it: the multiplications keep
    their 32-bit operands and only the result is widened to [size_t]. *)
Definition volume_narrow_multiply (d : dimensions_t) : Z :=
  to_size_t (unsigned_mul (unsigned_mul (x d) (y d)) (z d)).

(** The number of axes whose length is greater than one. *)
Definition axes_longer_than_one (d : dimensions_t) : Z :=
  Z.of_nat (length (filter (fun len => 1 <? len) [x d; y d; z d])).

(** The lexicographic order on the pairs (major, minor). *)
Definition lexicographic_lt (a b : compute_capability_t) : Prop :=
  major a < major b \/ (major a = major b /\ minor a < minor b).

(** Field-wise equality of two compute capabilities. *)
Definition fieldwise_eq (a b : compute_capability_t) : Prop :=
  major a = major b /\ minor a = minor b.

(** Exactly one of three conditions holds. *)
Definition exactly_one (p q r : bool) : bool :=
  match p, q, r with
  | true, false, false | false, true, false | false, false, true => true
  | _, _, _ => false
  end.

(** Component-wise equality of two dimension triples. *)
Definition componentwise_eq (a b : dim3) : Prop :=
  x a = x b /\ y a = y b /\ z a = z b.

End spec.

Import UInt cuda.

(** Every comparison of the six operators, decided. *)
Ltac compare_members :=
  rewrite ?Z.gtb_ltb, ?Z.geb_leb;
  repeat match goal with
         | |- context [ ?a =? ?b ] => destruct (Z.eqb_spec a b)
         | |- context [ ?a <? ?b ] => destruct (Z.ltb_spec a b)
         | |- context [ ?a <=? ?b ] => destruct (Z.leb_spec a b)
         end.

(** ** Arithmetic of the unsigned types *)

Lemma modulus_unsigned : modulus unsigned_bits = 4294967296.
Proof. reflexivity. Qed.

Lemma modulus_size_t : modulus size_t_bits = 18446744073709551616.
Proof. reflexivity. Qed.

Lemma modulus_unsigned_char : modulus unsigned_char_bits = 256.
Proof. reflexivity. Qed.

Lemma wrap_in_range (bits v : Z) : 0 <= bits -> in_range bits (wrap bits v).
Proof.
  intros Hb. unfold in_range, wrap, modulus.
  apply Z.mod_pos_bound. apply Z.pow_pos_nonneg; lia.
Qed.

Lemma wrap_small (bits v : Z) : in_range bits v -> wrap bits v = v.
Proof. unfold in_range, wrap. intros H. now apply Z.mod_small. Qed.

Lemma to_unsigned_small (v : Z) : is_unsigned v -> to_unsigned v = v.
Proof. apply wrap_small. Qed.

Lemma to_size_t_small (v : Z) : is_size_t v -> to_size_t v = v.
Proof. apply wrap_small. Qed.

Lemma is_unsigned_bounds (v : Z) : is_unsigned v <-> 0 <= v < 4294967296.
Proof. unfold is_unsigned, in_range. rewrite modulus_unsigned. tauto. Qed.

Lemma is_size_t_bounds (v : Z) : is_size_t v <-> 0 <= v < 18446744073709551616.
Proof. unfold is_size_t, in_range. rewrite modulus_size_t. tauto. Qed.

Lemma is_unsigned_elim (v : Z) : is_unsigned v -> 0 <= v < 4294967296.
Proof. apply is_unsigned_bounds. Qed.

Lemma is_unsigned_intro (v : Z) : 0 <= v < 4294967296 -> is_unsigned v.
Proof. apply is_unsigned_bounds. Qed.

Lemma is_size_t_intro (v : Z) : 0 <= v < 18446744073709551616 -> is_size_t v.
Proof. apply is_size_t_bounds. Qed.

Lemma unsigned_is_size_t (v : Z) : is_unsigned v -> is_size_t v.
Proof. rewrite is_unsigned_bounds, is_size_t_bounds. lia. Qed.

Lemma to_unsigned_spec (v : Z) : to_unsigned v = v mod 4294967296.
Proof. reflexivity. Qed.

Lemma to_size_t_spec (v : Z) : to_size_t v = v mod 18446744073709551616.
Proof. reflexivity. Qed.

Lemma of_bool_range (b : bool) : 0 <= of_bool b <= 1.
Proof. destruct b; simpl; lia. Qed.

Lemma truth_of_bool (b : bool) : truth (of_bool b) = b.
Proof. now destruct b. Qed.

(** ** Compute capabilities: the combined number *)

Lemma compute_capability_eq_spec (a b : compute_capability_t) :
  compute_capability_eq a b = true <-> a = b.
Proof.
  unfold compute_capability_eq.
  rewrite andb_true_iff, !Z.eqb_eq.
  destruct a as [ma na], b as [mb nb]; simpl. split.
  - intros [-> ->]. reflexivity.
  - intros E. injection E as -> ->. split; reflexivity.
Qed.

(** [major * 10 + minor] wraps once: the two reductions of the source
    amount to one reduction of the mathematical value. *)
Lemma as_combined_number_mod (cc : compute_capability_t) :
  as_combined_number cc = (major cc * 10 + minor cc) mod 4294967296.
Proof.
  unfold as_combined_number, unsigned_add, unsigned_mul.
  rewrite !to_unsigned_spec. now rewrite Z.add_mod_idemp_l.
Qed.

Lemma as_combined_number_exact (cc : compute_capability_t) :
  0 <= major cc -> 0 <= minor cc ->
  major cc * 10 + minor cc < 4294967296 ->
  as_combined_number cc = major cc * 10 + minor cc.
Proof.
  intros HM Hm Hfit. rewrite as_combined_number_mod.
  apply Z.mod_small. lia.
Qed.

Lemma as_combined_number_unsigned (cc : compute_capability_t) :
  is_unsigned (as_combined_number cc).
Proof.
  rewrite as_combined_number_mod, is_unsigned_bounds.
  apply Z.mod_pos_bound. lia.
Qed.

Lemma from_combined_number_minor_digit (combined : Z) :
  0 <= minor (from_combined_number combined) < 10.
Proof. simpl. apply Z.mod_pos_bound. lia. Qed.

Lemma from_combined_number_wf (combined : Z) :
  is_unsigned combined -> compute_capability_wf (from_combined_number combined).
Proof.
  rewrite is_unsigned_bounds. intros H. unfold compute_capability_wf.
  rewrite !is_unsigned_bounds. simpl.
  pose proof (Z.mod_pos_bound combined 10 ltac:(lia)).
  pose proof (Z.div_mod combined 10 ltac:(lia)).
  lia.
Qed.

(** The version pair (7,5) and its combined number 75. *)
Example as_combined_number_7_5 :
  as_combined_number (make_compute_capability 7 5) = 75.
Proof. reflexivity. Qed.

Example from_combined_number_75 :
  from_combined_number 75 = make_compute_capability 7 5.
Proof. reflexivity. Qed.

(** Both ways of reading a combined number agree. *)
Lemma make_compute_capability_combined_eq (combined : Z) :
  make_compute_capability_combined combined = from_combined_number combined.
Proof. reflexivity. Qed.

Lemma combined_roundtrip_iff (cc : compute_capability_t) :
  compute_capability_wf cc ->
  (from_combined_number (as_combined_number cc) = cc <->
   minor cc < 10 /\ major cc * 10 + minor cc < 4294967296).
Proof.
  intros [HM Hm]. apply is_unsigned_elim in HM, Hm.
  split.
  - intros E.
    pose proof (from_combined_number_minor_digit (as_combined_number cc)) as Hd.
    pose proof (as_combined_number_unsigned cc) as Hc.
    apply is_unsigned_elim in Hc.
    pose proof (Z.div_mod (as_combined_number cc) 10 ltac:(lia)) as Hdm.
    rewrite E in Hd.
    apply (f_equal major) in E as EM. apply (f_equal minor) in E as Em.
    simpl in EM, Em. rewrite EM, Em in Hdm. lia.
  - intros [Hd Hfit].
    rewrite as_combined_number_exact by lia.
    destruct cc as [M m]; simpl in *.
    unfold from_combined_number. f_equal.
    + symmetry. apply Z.div_unique_pos with (r := m); lia.
    + symmetry. apply Z.mod_unique_pos with (q := M); lia.
Qed.

(** C1 (as amended).  For a compute capability [cc] whose members are
    [unsigned] values, [from_combined_number (as_combined_number cc)] gives
    back [cc] (by [operator==], that is field by field) exactly when
    [minor cc < 10] and [major cc * 10 + minor cc] stays below [2^32], so
    that the [unsigned] arithmetic of [as_combined_number] does not wrap.
    In particular the round trip holds under these two conditions, and it
    never holds when [10 <= minor cc]: (7,15) is combined to 85 and read
    back as (8,5). *)
Theorem combined_number_roundtrip (cc : compute_capability_t) :
  compute_capability_wf cc ->
  (compute_capability_eq (from_combined_number (as_combined_number cc)) cc = true
   <-> minor cc < 10 /\ major cc * 10 + minor cc < 2 ^ 32) /\
  (minor cc < 10 -> major cc * 10 + minor cc < 2 ^ 32 ->
   from_combined_number (as_combined_number cc) = cc) /\
  (10 <= minor cc ->
   compute_capability_eq (from_combined_number (as_combined_number cc)) cc = false) /\
  as_combined_number {| major := 7; minor := 15 |} = 85 /\
  from_combined_number 85 = {| major := 8; minor := 5 |}.
Proof.
  intros Hwf. change (2 ^ 32) with 4294967296.
  pose proof (combined_roundtrip_iff cc Hwf) as Hiff.
  split; [ | split; [ | split; [ | split; reflexivity ] ] ].
  - rewrite compute_capability_eq_spec. exact Hiff.
  - intros Hd Hfit. apply Hiff. split; assumption.
  - intros Hbig.
    destruct (compute_capability_eq _ cc) eqn:E; [ | reflexivity ].
    apply compute_capability_eq_spec, Hiff in E. lia.
Qed.

(** The round trip at (7,5), which is combined to 75. *)
Lemma combined_number_roundtrip_7_5 :
  compute_capability_wf {| major := 7; minor := 5 |} /\
  from_combined_number (as_combined_number {| major := 7; minor := 5 |})
  = {| major := 7; minor := 5 |}.
Proof.
  assert (Hwf : compute_capability_wf {| major := 7; minor := 5 |}).
  { split; apply is_unsigned_intro; simpl; lia. }
  split; [ exact Hwf | ].
  apply (combined_number_roundtrip {| major := 7; minor := 5 |} Hwf);
    simpl; lia.
Defined.

(** C1 (as stated) fails where [major * 10] leaves the [unsigned] range:
    the minor version of (429496730, 0) is a single digit, its combined
    number is [4294967300 mod 2^32 = 4], and 4 is read back as (0,4). *)
Lemma combined_number_roundtrip_wraps :
  compute_capability_wf {| major := 429496730; minor := 0 |} /\
  minor {| major := 429496730; minor := 0 |} < 10 /\
  as_combined_number {| major := 429496730; minor := 0 |} = 4 /\
  from_combined_number (as_combined_number {| major := 429496730; minor := 0 |})
  = {| major := 0; minor := 4 |} /\
  compute_capability_eq
    (from_combined_number (as_combined_number {| major := 429496730; minor := 0 |}))
    {| major := 429496730; minor := 0 |} = false.
Proof.
  split; [ split; apply is_unsigned_intro; simpl; lia | ].
  split; [ simpl; lia | ].
  repeat split; reflexivity.
Qed.

(** C10.  For every [unsigned] value [n],
    [as_combined_number (from_combined_number n) = n]: the minor member
    read from [n] is the digit [n mod 10], below 10, and
    [(n / 10) * 10 + n mod 10] is [n] itself, so nothing wraps. *)
Theorem combined_number_reverse_roundtrip (n : Z) :
  is_unsigned n ->
  minor (from_combined_number n) < 10 /\
  as_combined_number (from_combined_number n) = n.
Proof.
  intros Hn. split; [ apply from_combined_number_minor_digit | ].
  apply is_unsigned_elim in Hn.
  pose proof (Z.mod_pos_bound n 10 ltac:(lia)) as Hd.
  pose proof (Z.div_mod n 10 ltac:(lia)) as Hdm.
  assert (0 <= n / 10) by (apply Z.div_pos; lia).
  rewrite as_combined_number_exact; simpl; lia.
Qed.

(** The reverse round trip at the largest [unsigned] value. *)
Lemma combined_number_reverse_roundtrip_max :
  is_unsigned 4294967295 /\
  as_combined_number (from_combined_number 4294967295) = 4294967295.
Proof.
  assert (Hn : is_unsigned 4294967295) by (apply is_unsigned_intro; lia).
  split; [ exact Hn | ].
  apply (combined_number_reverse_roundtrip 4294967295 Hn).
Defined.

(** ** Dimensions *)

Lemma dim3_wf_intro (a b c : Z) :
  0 <= a < 4294967296 -> 0 <= b < 4294967296 -> 0 <= c < 4294967296 ->
  dim3_wf {| x := a; y := b; z := c |}.
Proof.
  intros Ha Hb Hc. repeat split; simpl; lia.
Qed.

Lemma dim3_wf_elim (d : dim3) :
  dim3_wf d ->
  0 <= x d < 4294967296 /\ 0 <= y d < 4294967296 /\ 0 <= z d < 4294967296.
Proof.
  intros (Hx & Hy & Hz).
  apply is_unsigned_elim in Hx, Hy, Hz. auto.
Qed.

(** The two [size_t] products of [volume] amount to one reduction of the
    mathematical product modulo [2^64]. *)
Lemma volume_mod (d : dimensions_t) :
  volume d = (x d * y d * z d) mod 18446744073709551616.
Proof.
  unfold volume, size_t_mul. rewrite !to_size_t_spec.
  rewrite (Z.mul_mod (x d * y d) (z d)) by lia.
  rewrite (Z.mul_mod (x d) (y d)) by lia.
  reflexivity.
Qed.

Lemma volume_narrow_multiply_bound (d : dimensions_t) :
  0 <= spec.volume_narrow_multiply d < 4294967296.
Proof.
  unfold spec.volume_narrow_multiply.
  set (p := unsigned_mul _ _).
  assert (Hp : 0 <= p < 4294967296).
  { subst p. unfold unsigned_mul at 1. rewrite to_unsigned_spec.
    apply Z.mod_pos_bound. lia. }
  rewrite to_size_t_spec, Z.mod_small; lia.
Qed.

Lemma volume_of_fitting_product (d : dimensions_t) :
  dim3_wf d ->
  x d * y d * z d < 18446744073709551616 ->
  volume d = x d * y d * z d.
Proof.
  intros Hwf Hfit.
  apply dim3_wf_elim in Hwf. destruct Hwf as (Hx & Hy & Hz).
  rewrite volume_mod. apply Z.mod_small. split; [ | exact Hfit ].
  apply Z.mul_nonneg_nonneg; [ apply Z.mul_nonneg_nonneg | ]; lia.
Qed.

(** C2.  When the members of [d] are [unsigned] values and their
    mathematical product is below [2^64], the width of [size_t],
    [volume d] is exactly that product. *)
Theorem volume_exact (d : dimensions_t) :
  dim3_wf d ->
  x d * y d * z d < 2 ^ 64 ->
  volume d = x d * y d * z d.
Proof.
  intros Hwf Hfit. change (2 ^ 64) with 18446744073709551616 in Hfit.
  now apply volume_of_fitting_product.
Qed.

(** The boundary value of the specification: x = y = z = 0xFFFF. *)
Lemma volume_exact_0xFFFF :
  dim3_wf {| x := 65535; y := 65535; z := 65535 |} /\
  65535 * 65535 * 65535 < 2 ^ 64 /\
  volume {| x := 65535; y := 65535; z := 65535 |} = 281462092005375.
Proof.
  assert (Hwf : dim3_wf {| x := 65535; y := 65535; z := 65535 |})
    by (apply dim3_wf_intro; lia).
  assert (Hfit : 65535 * 65535 * 65535 < 2 ^ 64) by reflexivity.
  split; [ exact Hwf | split; [ exact Hfit | ] ].
  exact (volume_exact {| x := 65535; y := 65535; z := 65535 |} Hwf Hfit).
Defined.

(** C3 (as amended).  [volume] converts [x] to [size_t] before the first
    multiplication, so both products are 64-bit: the result is the
    mathematical product modulo [2^64].  A product in [2^32, 2^64) is
    returned exactly, and is neither the product modulo [2^32] nor what the
    multiplication on 32-bit operands gives.  Wrap-around happens modulo
    [2^64] only: for x = y = z = 2^32 - 1 the product exceeds [2^64] and
    [volume] returns its remainder modulo [2^64], 12884901887, while the
    remainder modulo [2^32] is 4294967295. *)
Theorem volume_wraps_modulo_size_t (d : dimensions_t) :
  dim3_wf d ->
  volume d = (x d * y d * z d) mod 2 ^ 64 /\
  (2 ^ 32 <= x d * y d * z d < 2 ^ 64 ->
   volume d = x d * y d * z d /\
   volume d <> (x d * y d * z d) mod 2 ^ 32 /\
   volume d <> spec.volume_narrow_multiply d) /\
  2 ^ 64 <= 4294967295 * 4294967295 * 4294967295 /\
  volume {| x := 4294967295; y := 4294967295; z := 4294967295 |} = 12884901887 /\
  (4294967295 * 4294967295 * 4294967295) mod 2 ^ 32 = 4294967295.
Proof.
  intros Hwf.
  split; [ apply volume_mod | ].
  split; [ | split; [ discriminate | split; reflexivity ] ].
  intros [Hlo Hhi].
  change (2 ^ 64) with 18446744073709551616 in Hhi.
  rewrite (volume_of_fitting_product d Hwf Hhi).
  change (2 ^ 32) with 4294967296 in *.
  pose proof (volume_narrow_multiply_bound d) as Hn.
  pose proof (Z.mod_pos_bound (x d * y d * z d) 4294967296 ltac:(lia)) as Hm.
  repeat split; lia.
Qed.

(** A grid whose volume, 10^10, needs more than 32 bits. *)
Lemma volume_wraps_modulo_size_t_1e10 :
  dim3_wf {| x := 100000; y := 100000; z := 1 |} /\
  volume {| x := 100000; y := 100000; z := 1 |} = 10000000000.
Proof.
  assert (Hwf : dim3_wf {| x := 100000; y := 100000; z := 1 |})
    by (apply dim3_wf_intro; lia).
  split; [ exact Hwf | ].
  apply (volume_wraps_modulo_size_t {| x := 100000; y := 100000; z := 1 |} Hwf).
  simpl. lia.
Defined.

(** C3 (as stated) fails at x = y = 65536, z = 1, whose product is [2^32]:
    a multiplication that kept 32-bit operands would wrap to 0 before the
    result is widened, and [volume] returns the exact product. *)
Lemma volume_does_not_wrap_at_32_bits :
  dim3_wf {| x := 65536; y := 65536; z := 1 |} /\
  2 ^ 32 <= 65536 * 65536 * 1 /\
  (65536 * 65536 * 1) mod 2 ^ 32 = 0 /\
  spec.volume_narrow_multiply {| x := 65536; y := 65536; z := 1 |} = 0 /\
  volume {| x := 65536; y := 65536; z := 1 |} = 4294967296.
Proof.
  split; [ apply dim3_wf_intro; lia | ].
  split; [ discriminate | ].
  repeat split; reflexivity.
Qed.

Lemma empty_of_bool (d : dimensions_t) :
  empty d = of_bool ((x d =? 0) || (y d =? 0) || (z d =? 0)).
Proof.
  unfold empty. apply to_size_t_small, is_size_t_intro.
  pose proof (of_bool_range ((x d =? 0) || (y d =? 0) || (z d =? 0))). lia.
Qed.

Lemma some_component_zero_iff (d : dimensions_t) :
  (x d =? 0) || (y d =? 0) || (z d =? 0) = true <->
  x d = 0 \/ y d = 0 \/ z d = 0.
Proof.
  rewrite !orb_true_iff, !Z.eqb_eq. tauto.
Qed.

(** C6.  [empty d] is true (the [size_t] value 1) if and only if one of
    the three members of [d] is 0, and false (the value 0) otherwise; in
    particular it is false when every member is at least 1. *)
Theorem empty_iff_zero_component (d : dimensions_t) :
  (truth (empty d) = true <-> x d = 0 \/ y d = 0 \/ z d = 0) /\
  (empty d = 1 <-> x d = 0 \/ y d = 0 \/ z d = 0) /\
  (empty d = 0 <-> ~ (x d = 0 \/ y d = 0 \/ z d = 0)) /\
  (1 <= x d -> 1 <= y d -> 1 <= z d -> truth (empty d) = false).
Proof.
  rewrite empty_of_bool, truth_of_bool.
  pose proof (some_component_zero_iff d) as Hz.
  destruct ((x d =? 0) || (y d =? 0) || (z d =? 0)); simpl.
  - assert (Hsome : x d = 0 \/ y d = 0 \/ z d = 0) by now apply Hz.
    repeat apply conj; try tauto; lia.
  - assert (Hnone : ~ (x d = 0 \/ y d = 0 \/ z d = 0)).
    { intros H. apply Hz in H. discriminate. }
    repeat apply conj; try tauto; discriminate.
Qed.

Lemma dimensionality_small (d : dimensions_t) :
  dimensionality d
  = of_bool (1 <? z d) + of_bool (1 <? y d) + of_bool (1 <? x d).
Proof.
  unfold dimensionality, to_unsigned_char, wrap.
  rewrite modulus_unsigned_char. apply Z.mod_small.
  pose proof (of_bool_range (1 <? x d)).
  pose proof (of_bool_range (1 <? y d)).
  pose proof (of_bool_range (1 <? z d)). lia.
Qed.

(** C7.  [dimensionality d] is the number of axes of [d] that are longer
    than 1, a value between 0 and 3; it is 0 for (1,1,1), 1 for (5,1,1),
    2 for (5,5,1) and 3 for (5,5,5). *)
Theorem dimensionality_counts_axes (d : dimensions_t) :
  dimensionality d = spec.axes_longer_than_one d /\
  0 <= dimensionality d <= 3 /\
  dimensionality {| x := 1; y := 1; z := 1 |} = 0 /\
  dimensionality {| x := 5; y := 1; z := 1 |} = 1 /\
  dimensionality {| x := 5; y := 5; z := 1 |} = 2 /\
  dimensionality {| x := 5; y := 5; z := 5 |} = 3.
Proof.
  rewrite dimensionality_small. unfold spec.axes_longer_than_one.
  split; [ | split; [ | repeat split; reflexivity ] ].
  - simpl filter.
    destruct (1 <? x d), (1 <? y d), (1 <? z d); reflexivity.
  - pose proof (of_bool_range (1 <? x d)).
    pose proof (of_bool_range (1 <? y d)).
    pose proof (of_bool_range (1 <? z d)). lia.
Qed.

(** ** Compute capabilities: validity and order *)

(** C5.  [is_valid cc] is true if and only if both members lie strictly
    between 0 and 9999: it is true for every major and minor in
    [1, 9998], and false as soon as a member is 0 or is 9999 or more. *)
Theorem is_valid_iff_open_range (cc : compute_capability_t) :
  (is_valid cc = true <->
   (0 < major cc < 9999) /\ (0 < minor cc < 9999)) /\
  (1 <= major cc <= 9998 -> 1 <= minor cc <= 9998 -> is_valid cc = true) /\
  (major cc = 0 \/ minor cc = 0 \/ 9999 <= major cc \/ 9999 <= minor cc ->
   is_valid cc = false).
Proof.
  assert (Hiff : is_valid cc = true <->
                 (0 < major cc < 9999) /\ (0 < minor cc < 9999)).
  { unfold is_valid. rewrite !andb_true_iff, !Z.ltb_lt. tauto. }
  split; [ exact Hiff | split ].
  - intros HM Hm. apply Hiff. lia.
  - intros Hout. destruct (is_valid cc); [ | reflexivity ].
    assert (Hin : (0 < major cc < 9999) /\ (0 < minor cc < 9999))
      by now apply Hiff.
    lia.
Qed.

Lemma compute_capability_eq_fieldwise (a b : compute_capability_t) :
  compute_capability_eq a b = true <-> spec.fieldwise_eq a b.
Proof.
  unfold compute_capability_eq, spec.fieldwise_eq.
  now rewrite andb_true_iff, !Z.eqb_eq.
Qed.

Lemma compute_capability_ne_negb_eq (a b : compute_capability_t) :
  compute_capability_ne a b = negb (compute_capability_eq a b).
Proof.
  unfold compute_capability_ne, compute_capability_eq.
  now rewrite negb_andb.
Qed.

Lemma compute_capability_lt_lexicographic (a b : compute_capability_t) :
  compute_capability_lt a b = true <-> spec.lexicographic_lt a b.
Proof.
  unfold compute_capability_lt, spec.lexicographic_lt.
  now rewrite orb_true_iff, andb_true_iff, Z.eqb_eq, !Z.ltb_lt.
Qed.

Lemma compute_capability_gt_flip (a b : compute_capability_t) :
  compute_capability_gt a b = compute_capability_lt b a.
Proof.
  unfold compute_capability_gt, compute_capability_lt.
  rewrite !Z.gtb_ltb, (Z.eqb_sym (major a)). reflexivity.
Qed.

Lemma compute_capability_trichotomy (a b : compute_capability_t) :
  spec.exactly_one (compute_capability_lt a b)
                   (compute_capability_eq a b)
                   (compute_capability_gt a b) = true.
Proof.
  unfold compute_capability_lt, compute_capability_eq, compute_capability_gt.
  compare_members; simpl; try reflexivity; lia.
Qed.

Lemma compute_capability_lt_irrefl (a : compute_capability_t) :
  compute_capability_lt a a = false.
Proof.
  unfold compute_capability_lt.
  rewrite !Z.ltb_irrefl, andb_false_r. reflexivity.
Qed.

Lemma compute_capability_lt_trans (a b c : compute_capability_t) :
  compute_capability_lt a b = true ->
  compute_capability_lt b c = true ->
  compute_capability_lt a c = true.
Proof.
  rewrite !compute_capability_lt_lexicographic.
  unfold spec.lexicographic_lt. lia.
Qed.

Lemma compute_capability_le_lt_or_eq (a b : compute_capability_t) :
  compute_capability_le a b
  = compute_capability_lt a b || compute_capability_eq a b.
Proof.
  unfold compute_capability_le, compute_capability_lt, compute_capability_eq.
  compare_members; simpl; try reflexivity; lia.
Qed.

Lemma compute_capability_ge_gt_or_eq (a b : compute_capability_t) :
  compute_capability_ge a b
  = compute_capability_gt a b || compute_capability_eq a b.
Proof.
  unfold compute_capability_ge, compute_capability_gt, compute_capability_eq.
  compare_members; simpl; try reflexivity; lia.
Qed.

(** C4.  The six comparison operators of [compute_capability_t] are those
    of the strict total order that is lexicographic on (major, minor):
    [==] holds exactly for field-wise equal values and [!=] is its negation;
    [<] is the lexicographic order, [>] its converse, and [<=], [>=] add
    equality to them; of [<], [==], [>] exactly one holds for every pair;
    [<] is irreflexive and transitive.  In particular
    (7,0) < (7,5) < (8,0), (7,5) == (7,5) and (8,0) > (7,9). *)
Theorem compute_capability_strict_total_order :
  (forall a b, compute_capability_eq a b = true <-> spec.fieldwise_eq a b) /\
  (forall a b, compute_capability_ne a b = negb (compute_capability_eq a b)) /\
  (forall a b, compute_capability_lt a b = true <-> spec.lexicographic_lt a b) /\
  (forall a b, compute_capability_gt a b = compute_capability_lt b a) /\
  (forall a b, compute_capability_le a b
               = compute_capability_lt a b || compute_capability_eq a b) /\
  (forall a b, compute_capability_ge a b
               = compute_capability_gt a b || compute_capability_eq a b) /\
  (forall a b, spec.exactly_one (compute_capability_lt a b)
                                (compute_capability_eq a b)
                                (compute_capability_gt a b) = true) /\
  (forall a, compute_capability_lt a a = false) /\
  (forall a b c, compute_capability_lt a b = true ->
                 compute_capability_lt b c = true ->
                 compute_capability_lt a c = true) /\
  compute_capability_lt {| major := 7; minor := 0 |} {| major := 7; minor := 5 |} = true /\
  compute_capability_lt {| major := 7; minor := 5 |} {| major := 8; minor := 0 |} = true /\
  compute_capability_eq {| major := 7; minor := 5 |} {| major := 7; minor := 5 |} = true /\
  compute_capability_gt {| major := 8; minor := 0 |} {| major := 7; minor := 9 |} = true.
Proof.
  split; [ exact compute_capability_eq_fieldwise | ].
  split; [ exact compute_capability_ne_negb_eq | ].
  split; [ exact compute_capability_lt_lexicographic | ].
  split; [ exact compute_capability_gt_flip | ].
  split; [ exact compute_capability_le_lt_or_eq | ].
  split; [ exact compute_capability_ge_gt_or_eq | ].
  split; [ exact compute_capability_trichotomy | ].
  split; [ exact compute_capability_lt_irrefl | ].
  split; [ exact compute_capability_lt_trans | ].
  repeat split; reflexivity.
Qed.

(** ** Launch configurations *)

Lemma dim3_eq_componentwise (a b : dim3) :
  dim3_eq a b = true <-> spec.componentwise_eq a b.
Proof.
  unfold dim3_eq, spec.componentwise_eq.
  rewrite !andb_true_iff, !Z.eqb_eq. tauto.
Qed.

Lemma dimensions_eq_componentwise (a b : dimensions_t) :
  dimensions_eq a b = true <-> spec.componentwise_eq a b.
Proof. apply dim3_eq_componentwise. Qed.

Lemma componentwise_eq_leibniz (a b : dim3) :
  spec.componentwise_eq a b <-> a = b.
Proof.
  unfold spec.componentwise_eq. destruct a, b; simpl. split.
  - intros (-> & -> & ->). reflexivity.
  - intros E. injection E as -> -> ->. auto.
Qed.

Lemma launch_configuration_eq_fields (a b : launch_configuration_t) :
  launch_configuration_eq a b = true <->
  spec.componentwise_eq (grid_dimensions a) (grid_dimensions b) /\
  spec.componentwise_eq (block_dimensions a) (block_dimensions b) /\
  dynamic_shared_memory_size a = dynamic_shared_memory_size b.
Proof.
  unfold launch_configuration_eq.
  rewrite !andb_true_iff, !dimensions_eq_componentwise, Z.eqb_eq. tauto.
Qed.

Lemma launch_configuration_eq_leibniz (a b : launch_configuration_t) :
  launch_configuration_eq a b = true <-> a = b.
Proof.
  rewrite launch_configuration_eq_fields, !componentwise_eq_leibniz.
  destruct a, b; simpl. split.
  - intros (-> & -> & ->). reflexivity.
  - intros E. injection E as -> -> ->. auto.
Qed.

(** C8.  [operator==] on launch configurations compares all three fields:
    it is true if and only if the grid dimensions agree component by
    component, the block dimensions agree component by component, and the
    dynamic shared memory sizes are equal.  How the two values were built
    does not matter: a configuration made by [make_launch_config], with the
    size given or left to its default 0, equals the aggregate with the same
    three fields. *)
Theorem launch_configuration_eq_fieldwise :
  (forall a b : launch_configuration_t,
     launch_configuration_eq a b = true <->
     spec.componentwise_eq (grid_dimensions a) (grid_dimensions b) /\
     spec.componentwise_eq (block_dimensions a) (block_dimensions b) /\
     dynamic_shared_memory_size a = dynamic_shared_memory_size b) /\
  (forall a b : launch_configuration_t,
     launch_configuration_eq a b = true <-> a = b) /\
  (forall (g b : dimensions_t) (s : Z),
     launch_configuration_eq
       (make_launch_config g b (Some s))
       {| grid_dimensions := g; block_dimensions := b;
          dynamic_shared_memory_size := s |} = true) /\
  (forall g b : dimensions_t,
     launch_configuration_eq
       (make_launch_config g b None)
       {| grid_dimensions := g; block_dimensions := b;
          dynamic_shared_memory_size := 0 |} = true).
Proof.
  split; [ exact launch_configuration_eq_fields | ].
  split; [ exact launch_configuration_eq_leibniz | ].
  split; intros; now apply launch_configuration_eq_leibniz.
Qed.

(** ** Enumerations *)

(** C9.  Every alias has the value of its canonical enumerator, whatever
    values the CUDA headers give the four cache preferences: [none] is
    [no_preference], [equal] is [equal_l1_and_shared_memory],
    [prefer_shared] is [prefer_shared_memory_over_l1] and [prefer_l1] is
    [prefer_l1_over_shared_memory], each being the driver's constant; [sync]
    is [synchronous] (true) and [async] is [asynchronous] (false); and in
    [endianness_t], [big_endian] is [big] and [little_endian] is [little]. *)
Theorem enum_aliases_equal_canonical (drv : driver_types) :
  (multiprocessor_cache_preference_t.none
   = multiprocessor_cache_preference_t.no_preference /\
   multiprocessor_cache_preference_t.equal
   = multiprocessor_cache_preference_t.equal_l1_and_shared_memory /\
   multiprocessor_cache_preference_t.prefer_shared
   = multiprocessor_cache_preference_t.prefer_shared_memory_over_l1 /\
   multiprocessor_cache_preference_t.prefer_l1
   = multiprocessor_cache_preference_t.prefer_l1_over_shared_memory) /\
  (multiprocessor_cache_preference_t.none = cudaFuncCachePreferNone /\
   multiprocessor_cache_preference_t.equal = cudaFuncCachePreferEqual /\
   multiprocessor_cache_preference_t.prefer_shared = cudaFuncCachePreferShared /\
   multiprocessor_cache_preference_t.prefer_l1 = cudaFuncCachePreferL1) /\
  (sync = synchronous /\ async = asynchronous) /\
  (of_bool sync = 1 /\ of_bool synchronous = 1 /\
   of_bool async = 0 /\ of_bool asynchronous = 0) /\
  (endianness_t.big_endian = endianness_t.big /\
   endianness_t.little_endian = endianness_t.little /\
   of_bool endianness_t.big = 0 /\ of_bool endianness_t.little = 1).
Proof.
  unfold multiprocessor_cache_preference_t.none,
    multiprocessor_cache_preference_t.equal,
    multiprocessor_cache_preference_t.prefer_shared,
    multiprocessor_cache_preference_t.prefer_l1,
    sync, async,
    endianness_t.big_endian, endianness_t.little_endian.
  repeat split.
Qed.

(** ** Further properties of dimensions *)

Lemma product_zero_iff (a b c : Z) :
  a * b * c = 0 <-> a = 0 \/ b = 0 \/ c = 0.
Proof.
  rewrite !Z.mul_eq_0. tauto.
Qed.

Lemma empty_truth_iff (d : dimensions_t) :
  truth (empty d) = true <-> x d = 0 \/ y d = 0 \/ z d = 0.
Proof.
  rewrite empty_of_bool, truth_of_bool. apply some_component_zero_iff.
Qed.

Lemma unsigned_product_bound (a b : Z) :
  0 <= a < 4294967296 -> 0 <= b < 4294967296 ->
  0 <= a * b <= 4294967295 * 4294967295.
Proof.
  intros Ha Hb. split.
  - apply Z.mul_nonneg_nonneg; lia.
  - apply Z.mul_le_mono_nonneg; lia.
Qed.

(** An empty grid has volume 0.  Conversely, when the product of the three
    [unsigned] members is below [2^64], a volume of 0 means that the grid is
    empty; without that bound it need not: (2^31, 2^31, 4) has no zero
    member and its volume wraps to 0. *)
Theorem volume_zero_of_empty (d : dimensions_t) :
  dim3_wf d ->
  (truth (empty d) = true -> volume d = 0) /\
  (x d * y d * z d < 2 ^ 64 ->
   (volume d = 0 <-> truth (empty d) = true)) /\
  dim3_wf {| x := 2147483648; y := 2147483648; z := 4 |} /\
  truth (empty {| x := 2147483648; y := 2147483648; z := 4 |}) = false /\
  volume {| x := 2147483648; y := 2147483648; z := 4 |} = 0.
Proof.
  intros Hwf.
  assert (Hempty : truth (empty d) = true -> volume d = 0).
  { intros He. apply empty_truth_iff, product_zero_iff in He.
    rewrite volume_mod, He. reflexivity. }
  split; [ exact Hempty | split ].
  - intros Hfit. change (2 ^ 64) with 18446744073709551616 in Hfit.
    split; [ | exact Hempty ].
    rewrite (volume_of_fitting_product d Hwf Hfit).
    intros H0. now apply empty_truth_iff, product_zero_iff.
  - split; [ apply dim3_wf_intro; lia | split; reflexivity ].
Qed.

(** A grid with a zero-length axis. *)
Lemma volume_zero_of_empty_0_7_3 :
  dim3_wf {| x := 0; y := 7; z := 3 |} /\
  volume {| x := 0; y := 7; z := 3 |} = 0.
Proof.
  assert (Hwf : dim3_wf {| x := 0; y := 7; z := 3 |})
    by (apply dim3_wf_intro; lia).
  split; [ exact Hwf | ].
  exact (proj1 (volume_zero_of_empty {| x := 0; y := 7; z := 3 |} Hwf) eq_refl).
Defined.

(** A grid of [unsigned] members with an axis of length at most 1 (a 1-D
    or 2-D grid, or an empty one) never wraps: the product of the two
    remaining members is below [2^64], and [volume] is the exact product. *)
Theorem volume_exact_with_short_axis (d : dimensions_t) :
  dim3_wf d ->
  x d <= 1 \/ y d <= 1 \/ z d <= 1 ->
  volume d = x d * y d * z d.
Proof.
  intros Hwf Hshort. apply volume_of_fitting_product; [ exact Hwf | ].
  apply dim3_wf_elim in Hwf. destruct Hwf as (Hx & Hy & Hz).
  pose proof (unsigned_product_bound _ _ Hx Hy) as Hxy.
  pose proof (unsigned_product_bound _ _ Hx Hz) as Hxz.
  pose proof (unsigned_product_bound _ _ Hy Hz) as Hyz.
  destruct Hshort as [H1 | [H1 | H1]].
  - assert (E : x d = 0 \/ x d = 1) by lia.
    destruct E as [-> | ->]; lia.
  - assert (E : y d = 0 \/ y d = 1) by lia.
    destruct E as [E | E]; rewrite E in *; lia.
  - assert (E : z d = 0 \/ z d = 1) by lia.
    destruct E as [E | E]; rewrite E in *; lia.
Qed.

(** The largest 2-D grid. *)
Lemma volume_exact_with_short_axis_max :
  dim3_wf {| x := 4294967295; y := 4294967295; z := 1 |} /\
  volume {| x := 4294967295; y := 4294967295; z := 1 |}
  = 18446744065119617025.
Proof.
  assert (Hwf : dim3_wf {| x := 4294967295; y := 4294967295; z := 1 |})
    by (apply dim3_wf_intro; lia).
  split; [ exact Hwf | ].
  apply (volume_exact_with_short_axis _ Hwf).
  right; right; simpl; lia.
Defined.

(** [volume] does not depend on the order of the axes, also where it
    wraps: every product is a 64-bit one. *)
Theorem volume_axes_permutation (a b c : Z) :
  volume {| x := a; y := b; z := c |} = volume {| x := b; y := a; z := c |} /\
  volume {| x := a; y := b; z := c |} = volume {| x := a; y := c; z := b |} /\
  volume {| x := a; y := b; z := c |} = volume {| x := c; y := b; z := a |}.
Proof.
  rewrite !volume_mod. simpl.
  repeat split; f_equal; ring.
Qed.

(** How [dimensionality] relates to the other members, for a grid of
    [unsigned] members: it is 0 exactly when no axis is longer than 1 and 3
    exactly when every axis is; an empty grid has dimensionality at most 2;
    and a grid of dimensionality 0 that is not empty is (1,1,1), of
    volume 1. *)
Theorem dimensionality_extremes (d : dimensions_t) :
  dim3_wf d ->
  (dimensionality d = 0 <-> x d <= 1 /\ y d <= 1 /\ z d <= 1) /\
  (dimensionality d = 3 <-> 1 < x d /\ 1 < y d /\ 1 < z d) /\
  (truth (empty d) = true -> dimensionality d <= 2) /\
  (dimensionality d = 0 -> truth (empty d) = false ->
   d = {| x := 1; y := 1; z := 1 |} /\ volume d = 1).
Proof.
  intros Hwf. apply dim3_wf_elim in Hwf. destruct Hwf as (Hx & Hy & Hz).
  assert (H0 : dimensionality d = 0 <-> x d <= 1 /\ y d <= 1 /\ z d <= 1).
  { rewrite dimensionality_small.
    destruct (Z.ltb_spec 1 (x d)), (Z.ltb_spec 1 (y d)), (Z.ltb_spec 1 (z d));
      simpl; lia. }
  split; [ exact H0 | ].
  split; [ | split ].
  - rewrite dimensionality_small.
    destruct (Z.ltb_spec 1 (x d)), (Z.ltb_spec 1 (y d)), (Z.ltb_spec 1 (z d));
      simpl; lia.
  - intros He. apply empty_truth_iff in He.
    rewrite dimensionality_small.
    destruct (Z.ltb_spec 1 (x d)), (Z.ltb_spec 1 (y d)), (Z.ltb_spec 1 (z d));
      simpl; lia.
  - intros Hd Hne. apply H0 in Hd.
    assert (Hnz : ~ (x d = 0 \/ y d = 0 \/ z d = 0)).
    { intros Hsome. apply empty_truth_iff in Hsome. congruence. }
    assert (E : d = {| x := 1; y := 1; z := 1 |}).
    { destruct d as [a b c]; simpl in *. f_equal; lia. }
    split; [ exact E | ]. rewrite E. reflexivity.
Qed.

(** A 2-D grid with an empty third axis. *)
Lemma dimensionality_extremes_5_5_0 :
  dim3_wf {| x := 5; y := 5; z := 0 |} /\
  dimensionality {| x := 5; y := 5; z := 0 |} <= 2.
Proof.
  assert (Hwf : dim3_wf {| x := 5; y := 5; z := 0 |})
    by (apply dim3_wf_intro; lia).
  split; [ exact Hwf | ].
  exact (proj1 (proj2 (proj2 (dimensionality_extremes _ Hwf))) eq_refl).
Defined.

Lemma dim3_eq_leibniz (a b : dim3) : dim3_eq a b = true <-> a = b.
Proof.
  rewrite dim3_eq_componentwise. apply componentwise_eq_leibniz.
Qed.

(** [operator==] on [dimensions_t] is an equivalence relation, and equal
    dimensions cannot be told apart by [empty], [volume] or
    [dimensionality]. *)
Theorem dimensions_eq_equivalence :
  (forall a : dimensions_t, dimensions_eq a a = true) /\
  (forall a b : dimensions_t, dimensions_eq a b = dimensions_eq b a) /\
  (forall a b c : dimensions_t,
     dimensions_eq a b = true -> dimensions_eq b c = true ->
     dimensions_eq a c = true) /\
  (forall a b : dimensions_t,
     dimensions_eq a b = true ->
     empty a = empty b /\ volume a = volume b /\
     dimensionality a = dimensionality b).
Proof.
  unfold dimensions_eq, static_cast_dim3.
  split; [ | split; [ | split ] ].
  - intros a. now apply dim3_eq_leibniz.
  - intros a b. unfold dim3_eq.
    now rewrite (Z.eqb_sym (x a)), (Z.eqb_sym (y a)), (Z.eqb_sym (z a)).
  - intros a b c Hab Hbc.
    apply dim3_eq_leibniz in Hab, Hbc. apply dim3_eq_leibniz. congruence.
  - intros a b Hab. apply dim3_eq_leibniz in Hab. subst b. auto.
Qed.

(** ** Further properties of compute capabilities *)

Lemma as_from_combined_number (n : Z) :
  is_unsigned n -> as_combined_number (from_combined_number n) = n.
Proof.
  intros Hn. apply is_unsigned_elim in Hn.
  pose proof (Z.mod_pos_bound n 10 ltac:(lia)) as Hd.
  pose proof (Z.div_mod n 10 ltac:(lia)) as Hdm.
  assert (0 <= n / 10) by (apply Z.div_pos; lia).
  rewrite as_combined_number_exact; simpl; lia.
Qed.

(** Reading back a combined number normalises a capability: whatever the
    two members are, the capability read back has a single-digit minor
    version and the same combined number, so that reading back a second
    time changes nothing. *)
Theorem combined_number_normalises (cc : compute_capability_t) :
  minor (from_combined_number (as_combined_number cc)) < 10 /\
  as_combined_number (from_combined_number (as_combined_number cc))
  = as_combined_number cc /\
  from_combined_number
    (as_combined_number (from_combined_number (as_combined_number cc)))
  = from_combined_number (as_combined_number cc).
Proof.
  pose proof (as_from_combined_number _ (as_combined_number_unsigned cc)) as E.
  split; [ apply from_combined_number_minor_digit | ].
  split; [ exact E | now rewrite E ].
Qed.

(** Where [major * 10 + minor] stays below [2^32], a minor version of two
    or more digits carries into the major version: the capability read
    back from the combined number is (major + minor / 10, minor mod 10). *)
Theorem combined_number_carry (cc : compute_capability_t) :
  compute_capability_wf cc ->
  major cc * 10 + minor cc < 2 ^ 32 ->
  from_combined_number (as_combined_number cc)
  = {| major := major cc + minor cc / 10; minor := minor cc mod 10 |}.
Proof.
  intros [HM Hm] Hfit. apply is_unsigned_elim in HM, Hm.
  change (2 ^ 32) with 4294967296 in Hfit.
  rewrite as_combined_number_exact by lia.
  unfold from_combined_number. f_equal.
  - rewrite Z.add_comm, Z.div_add by lia. apply Z.add_comm.
  - rewrite Z.add_comm, Z.mod_add by lia. reflexivity.
Qed.

(** The capability (7,15): 85 is read back as (8,5). *)
Lemma combined_number_carry_7_15 :
  compute_capability_wf {| major := 7; minor := 15 |} /\
  from_combined_number (as_combined_number {| major := 7; minor := 15 |})
  = {| major := 8; minor := 5 |}.
Proof.
  assert (Hwf : compute_capability_wf {| major := 7; minor := 15 |})
    by (split; apply is_unsigned_intro; simpl; lia).
  split; [ exact Hwf | ].
  exact (combined_number_carry {| major := 7; minor := 15 |} Hwf eq_refl).
Defined.

(** On capabilities with a single-digit minor version whose combined
    number does not wrap, the comparison operators agree with the
    comparison of the combined numbers.  A minor version of two digits
    breaks this: (7,15) < (8,0), but the combined numbers are 85 and 80. *)
Theorem as_combined_number_order (a b : compute_capability_t) :
  compute_capability_wf a -> compute_capability_wf b ->
  minor a < 10 -> minor b < 10 ->
  major a * 10 + minor a < 2 ^ 32 ->
  major b * 10 + minor b < 2 ^ 32 ->
  compute_capability_lt a b = (as_combined_number a <? as_combined_number b) /\
  compute_capability_le a b = (as_combined_number a <=? as_combined_number b) /\
  compute_capability_eq a b = (as_combined_number a =? as_combined_number b) /\
  compute_capability_lt {| major := 7; minor := 15 |} {| major := 8; minor := 0 |} = true /\
  (as_combined_number {| major := 7; minor := 15 |}
   <? as_combined_number {| major := 8; minor := 0 |}) = false.
Proof.
  intros [HMa Hma] [HMb Hmb] Hda Hdb Hfa Hfb.
  apply is_unsigned_elim in HMa, Hma, HMb, Hmb.
  change (2 ^ 32) with 4294967296 in *.
  rewrite !as_combined_number_exact by lia.
  unfold compute_capability_lt, compute_capability_le, compute_capability_eq.
  split; [ | split; [ | split; [ | split; reflexivity ] ] ];
    compare_members; simpl; try reflexivity; lia.
Qed.

(** Volta (7,0) against Turing (7,5): 70 < 75. *)
Lemma as_combined_number_order_70_75 :
  compute_capability_lt {| major := 7; minor := 0 |} {| major := 7; minor := 5 |}
  = (as_combined_number {| major := 7; minor := 0 |}
     <? as_combined_number {| major := 7; minor := 5 |}).
Proof.
  assert (Hwf : forall M m, 0 <= M < 100 -> 0 <= m < 100 ->
                            compute_capability_wf {| major := M; minor := m |})
    by (intros M m HM Hm; split; apply is_unsigned_intro; simpl; lia).
  refine (proj1 (as_combined_number_order
                   {| major := 7; minor := 0 |} {| major := 7; minor := 5 |}
                   (Hwf 7 0 _ _) (Hwf 7 5 _ _) _ _ _ _));
    simpl; lia.
Defined.

(** [from_combined_number] turns the order of [unsigned] numbers into the
    order of capabilities: it is strictly monotone, and injective. *)
Theorem from_combined_number_order (n m : Z) :
  is_unsigned n -> is_unsigned m ->
  compute_capability_lt (from_combined_number n) (from_combined_number m)
  = (n <? m) /\
  compute_capability_le (from_combined_number n) (from_combined_number m)
  = (n <=? m) /\
  compute_capability_eq (from_combined_number n) (from_combined_number m)
  = (n =? m).
Proof.
  intros Hn Hm. apply is_unsigned_elim in Hn, Hm.
  pose proof (Z.mod_pos_bound n 10 ltac:(lia)).
  pose proof (Z.div_mod n 10 ltac:(lia)).
  pose proof (Z.mod_pos_bound m 10 ltac:(lia)).
  pose proof (Z.div_mod m 10 ltac:(lia)).
  unfold compute_capability_lt, compute_capability_le, compute_capability_eq.
  simpl. repeat split; compare_members; simpl; try reflexivity; lia.
Qed.

(** 75 against 80. *)
Lemma from_combined_number_order_75_80 :
  compute_capability_lt (from_combined_number 75) (from_combined_number 80)
  = (75 <? 80).
Proof.
  refine (proj1 (from_combined_number_order 75 80 _ _));
    apply is_unsigned_intro; lia.
Defined.

(** Which combined numbers denote a capability that [is_valid] accepts:
    exactly the [unsigned] numbers from 11 to 99989 whose last digit is not
    0.  A capability read from a multiple of 10, such as 70 or 80, has
    minor version 0 and is never valid. *)
Theorem is_valid_from_combined_number (n : Z) :
  is_unsigned n ->
  (is_valid (from_combined_number n) = true <->
   11 <= n < 99990 /\ n mod 10 <> 0) /\
  (n mod 10 = 0 -> is_valid (from_combined_number n) = false).
Proof.
  intros Hn. apply is_unsigned_elim in Hn.
  pose proof (Z.mod_pos_bound n 10 ltac:(lia)) as Hd.
  pose proof (Z.div_mod n 10 ltac:(lia)) as Hdm.
  assert (Hiff : is_valid (from_combined_number n) = true <->
                 11 <= n < 99990 /\ n mod 10 <> 0).
  { unfold is_valid. simpl.
    rewrite !andb_true_iff, !Z.ltb_lt. lia. }
  split; [ exact Hiff | ].
  intros H0. destruct (is_valid (from_combined_number n)); [ | reflexivity ].
  assert (n mod 10 <> 0) by now apply Hiff. contradiction.
Qed.

(** The combined number 75 is valid, 70 is not. *)
Lemma is_valid_from_combined_number_75_70 :
  is_valid (from_combined_number 75) = true /\
  is_valid (from_combined_number 70) = false.
Proof.
  split.
  - refine (proj2 (proj1 (is_valid_from_combined_number 75 _)) _);
      [ apply is_unsigned_intro; lia | split; [ lia | discriminate ] ].
  - refine (proj2 (is_valid_from_combined_number 70 _) eq_refl).
    apply is_unsigned_intro; lia.
Defined.

(** A capability that [is_valid] accepts has [unsigned] members, and its
    combined number is [major * 10 + minor] without wrap-around, between 11
    and 109978; when its minor version is a single digit it is read back
    unchanged. *)
Theorem is_valid_combined_number (cc : compute_capability_t) :
  is_valid cc = true ->
  compute_capability_wf cc /\
  as_combined_number cc = major cc * 10 + minor cc /\
  11 <= as_combined_number cc <= 109978 /\
  (minor cc < 10 -> from_combined_number (as_combined_number cc) = cc).
Proof.
  unfold is_valid. rewrite !andb_true_iff, !Z.ltb_lt.
  intros [[[HM0 HM1] Hm0] Hm1].
  assert (Hwf : compute_capability_wf cc)
    by (split; apply is_unsigned_intro; lia).
  assert (E : as_combined_number cc = major cc * 10 + minor cc)
    by (apply as_combined_number_exact; lia).
  split; [ exact Hwf | ].
  split; [ exact E | ].
  split; [ lia | ].
  intros Hd. apply (combined_roundtrip_iff cc Hwf). lia.
Qed.

(** The capability (8,6). *)
Lemma is_valid_combined_number_8_6 :
  is_valid {| major := 8; minor := 6 |} = true /\
  as_combined_number {| major := 8; minor := 6 |} = 8 * 10 + 6.
Proof.
  split; [ reflexivity | ].
  exact (proj1 (proj2 (is_valid_combined_number {| major := 8; minor := 6 |} eq_refl))).
Defined.

(** [<=] is a total order on capabilities up to [==]: reflexive, total,
    antisymmetric and transitive.  [<=] is the negation of [>], [>=] the
    negation of [<] and the converse of [<=], and [!=] holds exactly when
    [<] or [>] does. *)
Theorem compute_capability_le_total_order :
  (forall a, compute_capability_le a a = true) /\
  (forall a b, compute_capability_le a b || compute_capability_le b a = true) /\
  (forall a b, compute_capability_le a b && compute_capability_le b a
               = compute_capability_eq a b) /\
  (forall a b c, compute_capability_le a b = true ->
                 compute_capability_le b c = true ->
                 compute_capability_le a c = true) /\
  (forall a b, compute_capability_le a b = negb (compute_capability_gt a b)) /\
  (forall a b, compute_capability_ge a b = negb (compute_capability_lt a b)) /\
  (forall a b, compute_capability_ge a b = compute_capability_le b a) /\
  (forall a b, compute_capability_ne a b
               = compute_capability_lt a b || compute_capability_gt a b).
Proof.
  unfold compute_capability_le, compute_capability_lt, compute_capability_gt,
    compute_capability_ge, compute_capability_eq, compute_capability_ne.
  split; [ | split; [ | split; [ | split; [ | split; [ | split; [ | split ] ] ] ] ] ].
  - intros a. compare_members; simpl; try reflexivity; lia.
  - intros a b. compare_members; simpl; try reflexivity; lia.
  - intros a b. compare_members; simpl; try reflexivity; lia.
  - intros a b c.
    rewrite !orb_true_iff, !andb_true_iff, !Z.ltb_lt, !Z.eqb_eq, !Z.leb_le.
    lia.
  - intros a b. compare_members; simpl; try reflexivity; lia.
  - intros a b. compare_members; simpl; try reflexivity; lia.
  - intros a b. compare_members; simpl; try reflexivity; lia.
  - intros a b. compare_members; simpl; try reflexivity; lia.
Qed.

(** ** Further properties of launch configurations *)

